(** * The counter service (content/microservices/counter-service/app.py)

    A Flask application with four request handlers, each of which sends
    one command to a Redis server through a shared [redis.Redis] client
    and turns the reply, or the exception, into a JSON response.

    The development has four layers:
    - [Py]: the Python primitives the handlers use ([int], [str], [repr],
      [os.environ.get]);
    - [prog]: handlers as programs that issue store commands and may raise,
      with [try ... except];
    - [Redis]: the store, which is outside the repository;
    - the handlers of app.py, their sequential and interleaved execution,
      and the properties of the service. *)

From Stdlib Require Import ZArith Lia DecimalString DecimalZ DecimalPos.
From stdpp Require Import base option list strings gmap.
From Stdlib Require Import Ascii String.

Local Open Scope string_scope.
Local Open Scope Z_scope.

(** ** Python primitives *)

Module Py.

(** The two kinds of Python object the handlers pass to [int] and to the
    client: an [int] and a [str]. A [str] is a sequence of code points below
    256. *)
Inductive value :=
| Int (z : Z)
| Str (s : string).

(** An instance of a subclass of [Exception]: its class and what [str]
    gives for it. *)
Record exn := Exception { exn_type : string; exn_msg : string }.

(** [str(e)] *)
Definition str (e : exn) : string := exn_msg e.

(** [repr] of an [int], also what [str] gives: the decimal digits with a
    leading minus sign for a negative number. *)
Definition repr_int (z : Z) : string := NilZero.string_of_int (Z.to_int z).

Definition code (c : ascii) : Z := Z.of_N (Ascii.N_of_ascii c).

(** White space for the parser of integer literals: the C locale's. *)
Definition is_space (c : ascii) : bool :=
  let n := code c in
  ((9 <=? n) && (n <=? 13)) || (n =? 32).

(** White space beyond ASCII: NEL and the no-break space. *)
Definition is_wide_space (c : ascii) : bool :=
  let n := code c in
  (n =? 133) || (n =? 160).

(** What [int] does to a [str] before it parses: white space beyond ASCII
    becomes a blank, the rest stays. (Below 256 the only decimal digits are
    the ASCII ones.) *)
Fixpoint to_ascii (s : string) : string :=
  match s with
  | String c r => String (if is_wide_space c then " "%char else c) (to_ascii r)
  | EmptyString => EmptyString
  end.

Fixpoint lstrip (s : string) : string :=
  match s with
  | String c r => if is_space c then lstrip r else s
  | EmptyString => EmptyString
  end.

Fixpoint rstrip (s : string) : string :=
  match s with
  | String c r =>
      match rstrip r with
      | EmptyString => if is_space c then EmptyString else String c EmptyString
      | r' => String c r'
      end
  | EmptyString => EmptyString
  end.

Definition strip (s : string) : string := rstrip (lstrip s).

(** Digit grouping of an integer literal: single underscores between
    digits are dropped; one at either end, or two in a row, are refused.
    [prev] tells that the character before was an underscore (or that
    there was none yet). *)
Fixpoint ungroup (prev : bool) (s : string) : option string :=
  match s with
  | String c r =>
      if Ascii.eqb c "_"
      then (if prev then None else ungroup true r)
      else String c <$> ungroup false r
  | EmptyString => if prev then None else Some EmptyString
  end.

(** The digits of a base 10 literal, after the sign. *)
Definition digits (s : string) : option Z :=
  Z.of_uint <$> (ungroup true s ≫= NilZero.uint_of_string).

(** [int(s)] for a [str] in base 10: surrounding white space, one
    optional sign, digits with optional grouping. [None] stands for the
    [ValueError] of [int]. The interpreter's limit on the number of digits
    is left out. *)
Definition int_of_str (s : string) : option Z :=
  match strip (to_ascii s) with
  | String "+" r => digits r
  | String "-" r => Z.opp <$> digits r
  | t => digits t
  end.

Definition hex_digit (n : Z) : ascii :=
  Ascii.ascii_of_N (Z.to_N (if n <? 10 then 48 + n else 87 + n)).

Fixpoint contains (c : ascii) (s : string) : bool :=
  match s with
  | String d r => Ascii.eqb c d || contains c r
  | EmptyString => false
  end.

Definition backslash : ascii := "092"%char.
Definition double_quote : ascii := "034"%char.
Definition single_quote : ascii := "039"%char.

Fixpoint escape (quote : ascii) (s : string) : string :=
  match s with
  | String c r =>
      let n := code c in
      (if Ascii.eqb c quote || Ascii.eqb c backslash
       then String backslash (String c EmptyString)
       else if n =? 9 then String backslash "t"
       else if n =? 10 then String backslash "n"
       else if n =? 13 then String backslash "r"
       else if (n <? 32) || ((127 <=? n) && (n <=? 160)) || (n =? 173)
            then String backslash
                   (String "x" (String (hex_digit (n / 16))
                                  (String (hex_digit (n mod 16)) EmptyString)))
       else String c EmptyString) +:+ escape quote r
  | EmptyString => EmptyString
  end.

(** [repr] of a [str]: single quotes, unless the text has a single quote
    and no double quote; what does not print is escaped. *)
Definition repr_str (s : string) : string :=
  let quote : ascii :=
    if contains single_quote s && negb (contains double_quote s)
    then double_quote else single_quote in
  String quote (escape quote s) +:+ String quote EmptyString.

Definition ValueError (msg : string) : exn := Exception "ValueError" msg.

(** [int(x)] *)
Definition int (x : value) : exn + Z :=
  match x with
  | Int z => inr z
  | Str s =>
      match int_of_str s with
      | Some z => inr z
      | None =>
          inl (ValueError ("invalid literal for int() with base 10: " +:+ repr_str s))
      end
  end.

(** [os.environ]: the variables that are set, by name. *)
Definition environ_get (environ : gmap string string) (name : string)
    (default : value) : value :=
  match environ !! name with
  | Some v => Str v
  | None => default
  end.

End Py.

(** ** Programs over the store *)

(** The commands app.py sends, indexed by the type of the reply the client
    hands back. *)
Inductive cmd : Type -> Type :=
| INCR (key : string) : cmd Z
| GET (key : string) : cmd (option string)
| SET (key : string) (v : Py.value) : cmd bool
| PING : cmd bool.

(** A handler body: it returns, raises, or sends a command and goes on with
    the reply or with the exception the client raised. *)
Inductive prog (A : Type) : Type :=
| Ret (a : A)
| Raise (e : Py.exn)
| Call {R : Type} (c : cmd R) (k : Py.exn + R -> prog A).

Arguments Ret {A} a.
Arguments Raise {A} e.
Arguments Call {A R} c k.

Fixpoint bind {A B : Type} (p : prog A) (f : A -> prog B) : prog B :=
  match p with
  | Ret a => f a
  | Raise e => Raise e
  | Call c k => Call c (fun r => bind (k r) f)
  end.

#[global] Instance prog_ret : MRet prog := fun A a => Ret a.
#[global] Instance prog_bind : MBind prog := fun A B f p => bind p f.

(** [try: p except Exception as e: h e] *)
Fixpoint try_except {A : Type} (p : prog A) (h : Py.exn -> prog A) : prog A :=
  match p with
  | Ret a => Ret a
  | Raise e => h e
  | Call c k => Call c (fun r => try_except (k r) h)
  end.

(** A primitive that returns or raises at once. *)
Definition lift {A : Type} (r : Py.exn + A) : prog A :=
  match r with
  | inl e => Raise e
  | inr a => Ret a
  end.

(** A client method: one command, whose exception propagates. *)
Definition call {R : Type} (c : cmd R) : prog R := Call c lift.

(** ** The store *)

Module Redis.

(** Modelled from the spec: the Redis server and the redis-py client
    ([redis.Redis(..., decode_responses=True)]) are not part of the
    repository. They follow the store contract of the specification:
    increment by one on a key (created at 0 first if absent, the new value
    returned), get by key (absence if unset), set key to value, and a
    liveness probe that fails if the store is unreachable. The contract
    puts no bound on the counter and none is modelled. Values are kept as
    the text the client reads back. [fault] is the failure a command meets
    at present, if any: the exception the client raises for it. *)
Record server := Server { fault : option Py.exn; db : gmap string string }.

Definition ResponseError (msg : string) : Py.exn :=
  Py.Exception "redis.exceptions.ResponseError" msg.

(** The text the client sends for a value. *)
Definition encode (v : Py.value) : string :=
  match v with
  | Py.Int z => Py.repr_int z
  | Py.Str s => s
  end.

(** Modelled from the spec: the server reads a stored text as an integer
    only in its plain decimal form (no sign for zero, no leading zero, no
    blank). *)
Definition int_of_text (t : string) : option Z :=
  match NilZero.int_of_string t with
  | Some d => if String.eqb (Py.repr_int (Z.of_int d)) t then Some (Z.of_int d) else None
  | None => None
  end.

(** Modelled from the spec: what a command of the client does to the
    store and gives back, by the same contract. A command that meets a
    failure raises it and changes nothing; an increment of a text that is
    no integer is refused. *)
Definition exec {R : Type} (c : cmd R) (s : server) : (Py.exn + R) * server :=
  match fault s with
  | Some e => (inl e, s)
  | None =>
      match c in cmd R return (Py.exn + R) * server with
      | INCR key =>
          match db s !! key with
          | None => (inr 1, Server None (<[key := Py.repr_int 1]> (db s)))
          | Some t =>
              match int_of_text t with
              | Some n => (inr (n + 1), Server None (<[key := Py.repr_int (n + 1)]> (db s)))
              | None => (inl (ResponseError "value is not an integer or out of range"), s)
              end
          end
      | GET key => (inr (db s !! key), s)
      | SET key v => (inr true, Server None (<[key := encode v]> (db s)))
      | PING => (inr true, s)
      end
  end.

(** The methods of the client. *)
Definition incr (name : string) : prog Z := call (INCR name).
Definition get (name : string) : prog (option string) := call (GET name).
Definition set (name : string) (value : Py.value) : prog bool := call (SET name value).
Definition ping : prog bool := call PING.

End Redis.

(** Running a program to its end against the store: the value returned or
    the exception that escaped, and the store afterwards. *)
Fixpoint run {A : Type} (p : prog A) (s : Redis.server) : (Py.exn + A) * Redis.server :=
  match p with
  | Ret a => (inr a, s)
  | Raise e => (inl e, s)
  | Call c k => let '(r, s') := Redis.exec c s in run (k r) s'
  end.

(** ** app.py *)

Inductive json :=
| JInt (z : Z)
| JStr (s : string).

(** A dict literal with string keys, in the order written. *)
Definition dict := list (string * json).

(** [jsonify(d)]: the response body is the JSON object of the dict. *)
Definition jsonify (d : dict) : dict := d.

(** What a view function returns: [(body, status)]. *)
Definition response := (dict * Z)%type.

Definition redis_host (environ : gmap string string) : Py.value :=
  Py.environ_get environ "REDIS_HOST" (Py.Str "localhost").

Definition redis_port (environ : gmap string string) : Py.exn + Z :=
  Py.int (Py.environ_get environ "REDIS_PORT" (Py.Int 6379)).

(** [port] of the [__main__] block. *)
Definition port (environ : gmap string string) : Py.exn + Z :=
  Py.int (Py.environ_get environ "PORT" (Py.Int 5000)).

Definition increment : prog response :=
  try_except
    (count ← Redis.incr "counter";
     mret (jsonify [("count", JInt count)], 200))
    (fun e => mret (jsonify [("error", JStr (Py.str e))], 500)).

Definition get_count : prog response :=
  try_except
    (count ← Redis.get "counter";
     let count := match count with
                  | None => Py.Int 0
                  | Some text => Py.Str text
                  end in
     n ← lift (Py.int count);
     mret (jsonify [("count", JInt n)], 200))
    (fun e => mret (jsonify [("error", JStr (Py.str e))], 500)).

Definition reset : prog response :=
  try_except
    (_ ← Redis.set "counter" (Py.Int 0);
     mret (jsonify [("count", JInt 0)], 200))
    (fun e => mret (jsonify [("error", JStr (Py.str e))], 500)).

Definition health : prog response :=
  try_except
    (_ ← Redis.ping;
     mret (jsonify [("status", JStr "healthy")], 200))
    (fun e => mret (jsonify [("status", JStr "unhealthy"); ("error", JStr (Py.str e))], 503)).

Definition empty_server : Redis.server := Redis.Server None ∅.
Definition ConnectionError (msg : string) : Py.exn :=
  Py.Exception "redis.exceptions.ConnectionError" msg.

(** The four routes of the application. *)
Inductive op := Increment | GetCount | Reset | Health.

Definition handler (o : op) : prog response :=
  match o with
  | Increment => increment
  | GetCount => get_count
  | Reset => reset
  | Health => health
  end.

(** ** Executions *)

(** What happens to the store over time: a request is served, or the
    network changes what commands meet from now on. *)
Inductive event :=
| Request (o : op)
| Net (f : option Py.exn).

Definition step (s : Redis.server) (ev : event) : Redis.server :=
  match ev with
  | Request o => snd (run (handler o) s)
  | Net f => Redis.Server f (Redis.db s)
  end.

(** The states the store goes through, the first one included. *)
Fixpoint states (s : Redis.server) (evs : list event) : list Redis.server :=
  match evs with
  | [] => [s]
  | ev :: evs' => s :: states (step s ev) evs'
  end.

(** [n] requests to one route in a row, the responses in order. *)
Fixpoint serve_all (p : prog response) (n : nat) (s : Redis.server)
    : list (Py.exn + response) * Redis.server :=
  match n with
  | O => ([], s)
  | S n' =>
      let '(r, s1) := run p s in
      let '(rs, s2) := serve_all p n' s1 in
      (r :: rs, s2)
  end.

(** The counter as the service reads it: absent, or the text of an integer
    that is not negative. *)
Definition counter_ok (s : Redis.server) : bool :=
  match Redis.db s !! "counter" with
  | None => true
  | Some t =>
      match Redis.int_of_text t with
      | Some n => 0 <=? n
      | None => false
      end
  end.

(** Requests in flight on the threads of the server: each is what is left
    of its handler. A thread that is scheduled sends its next command, which
    the store executes in one piece; the schedule names the thread that
    moves next, and naming a thread that has finished changes nothing. *)
Definition pool := list (prog response).

Definition sched_step (st : Redis.server * pool) (i : nat) : Redis.server * pool :=
  let '(s, ts) := st in
  match ts !! i with
  | Some (Call c k) =>
      let '(r, s') := Redis.exec c s in (s', <[i := k r]> ts)
  | _ => st
  end.

Definition interleave (sched : list nat) (st : Redis.server * pool) : Redis.server * pool :=
  foldl sched_step st sched.

Definition finished {A : Type} (p : prog A) : bool :=
  match p with
  | Call _ _ => false
  | _ => true
  end.

(** What a thread of the pool is, seen from outside: an increment that has
    not reached the store yet, or one that has its count. *)
Definition thread_of (o : option Z) : prog response :=
  match o with
  | None => increment
  | Some count => Ret ([("count", JInt count)], 200)
  end.

(** The counts handed out so far are pairwise distinct, lie between 1 and
    their number, and their number is the value in the store. *)
Definition pool_inv (n : nat) (st : Redis.server * pool) : Prop :=
  exists g : list (option Z),
    st.2 = thread_of <$> g
    /\ List.length g = n
    /\ Redis.fault st.1 = None
    /\ Redis.db st.1 !! "counter"
       = Some (Py.repr_int (Z.of_nat (List.length (omap id g))))
    /\ NoDup (omap id g)
    /\ Forall (fun c => 1 <= c <= Z.of_nat (List.length (omap id g))) (omap id g).

(** Texts made of decimal digits only. *)
Definition is_digit (c : ascii) : bool := (48 <=? Py.code c) && (Py.code c <=? 57).

Fixpoint all_digits (s : string) : bool :=
  match s with
  | String c r => is_digit c && all_digits r
  | EmptyString => true
  end.

(** Sample stores. *)
Definition reset_server : Redis.server := snd (run reset empty_server).
Definition stale_server : Redis.server := Redis.Server None {[ "counter" := "41" ]}.
Definition garbled_server : Redis.server := Redis.Server None {[ "counter" := "abc" ]}.
Definition refused : Py.exn :=
  ConnectionError "Error 111 connecting to localhost:6379. Connection refused.".
Definition unreachable_server : Redis.server := Redis.Server (Some refused) ∅.
Definition silent_server : Redis.server :=
  Redis.Server (Some (ConnectionError EmptyString)) ∅.

(** ** Requests and their responses *)

(** One event served: the store afterwards and, for a request, what the
    handler returned or raised. *)
Definition serve (s : Redis.server) (ev : event)
    : Redis.server * option (Py.exn + response) :=
  match ev with
  | Request o => let '(r, s') := run (handler o) s in (s', Some r)
  | Net f => (Redis.Server f (Redis.db s), None)
  end.

(** The events of a list served in order: what each gave, and the store at
    the end. *)
Fixpoint serve_events (s : Redis.server) (evs : list event)
    : list (option (Py.exn + response)) * Redis.server :=
  match evs with
  | [] => ([], s)
  | ev :: evs' =>
      let '(s1, r) := serve s ev in
      let '(rs, s2) := serve_events s1 evs' in
      (r :: rs, s2)
  end.

(** The integer the store holds for the service: 0 for a key that is not
    set, and nothing for a text that is no integer. *)
Definition value_of (s : Redis.server) : option Z :=
  match Redis.db s !! "counter" with
  | None => Some 0
  | Some t => Redis.int_of_text t
  end.

(** A reference to compare the service with: an integer with increment,
    read and reset, behind a connection that answers or fails. *)
Definition counter_step (st : Z * option Py.exn) (ev : event)
    : (Z * option Py.exn) * option (Py.exn + response) :=
  let '(c, f) := st in
  match ev with
  | Net f' => ((c, f'), None)
  | Request o =>
      match f with
      | Some e =>
          (st, Some (inr (match o with
                          | Health =>
                              ([("status", JStr "unhealthy"); ("error", JStr (Py.str e))],
                               503)
                          | _ => ([("error", JStr (Py.str e))], 500)
                          end)))
      | None =>
          match o with
          | Increment => ((c + 1, None), Some (inr ([("count", JInt (c + 1))], 200)))
          | GetCount => (st, Some (inr ([("count", JInt c)], 200)))
          | Reset => ((0, None), Some (inr ([("count", JInt 0)], 200)))
          | Health => (st, Some (inr ([("status", JStr "healthy")], 200)))
          end
      end
  end.

Fixpoint counter_events (st : Z * option Py.exn) (evs : list event)
    : list (option (Py.exn + response)) * (Z * option Py.exn) :=
  match evs with
  | [] => ([], st)
  | ev :: evs' =>
      let '(st1, r) := counter_step st ev in
      let '(rs, st2) := counter_events st1 evs' in
      (r :: rs, st2)
  end.

(** A command of any reply type, and the commands a program sends while it
    runs, in order. *)
Inductive any_cmd :=
| AnyCmd {R : Type} (c : cmd R).

Fixpoint commands {A : Type} (p : prog A) (s : Redis.server) : list any_cmd :=
  match p with
  | Call c k => let '(r, s') := Redis.exec c s in AnyCmd c :: commands (k r) s'
  | _ => []
  end.

(** A request in flight seen as a whole: not served yet, or served with
    what its handler gave. *)
Inductive request_state :=
| Waiting (o : op)
| Answered (r : Py.exn + response).

Definition thread (t : request_state) : prog response :=
  match t with
  | Waiting o => handler o
  | Answered (inr r) => Ret r
  | Answered (inl e) => Raise e
  end.

(** Serving the request of thread [i] whole, alone with the store. *)
Definition serve_at (st : Redis.server * list request_state) (i : nat)
    : Redis.server * list request_state :=
  let '(s, g) := st in
  match g !! i with
  | Some (Waiting o) => let '(r, s') := run (handler o) s in (s', <[i := Answered r]> g)
  | _ => st
  end.

(** ** Routes *)

(** The rules the [@app.route] decorators register: path, methods, view. *)
Definition routes : list (string * list string * op) :=
  [("/increment", ["POST"], Increment);
   ("/count", ["GET"], GetCount);
   ("/reset", ["POST"], Reset);
   ("/health", ["GET"], Health)].

(** A rule for GET also takes HEAD, as Flask registers it. *)
Definition allowed (method : string) (methods : list string) : bool :=
  existsb (String.eqb method) methods
  || (String.eqb method "HEAD" && existsb (String.eqb "GET") methods).

(** The view that is called for a request line, if any. *)
Fixpoint find_view (rules : list (string * list string * op)) (method path : string)
    : option op :=
  match rules with
  | [] => None
  | (p, methods, o) :: rest =>
      if String.eqb path p && allowed method methods then Some o
      else find_view rest method path
  end.

Definition view_of (method path : string) : option op := find_view routes method path.

(** * Properties *)

(** ** The definitions at work *)

Example int_of_str_ex1 : Py.int_of_str " +1_000 " = Some 1000.
Proof. reflexivity. Qed.
Example int_of_str_ex2 : Py.int_of_str "-007" = Some (-7).
Proof. reflexivity. Qed.
(** The separators are white space for [str.strip] but not for [int]; the
    no-break space is one for both. *)
Example int_of_str_ex4 :
  Py.int_of_str (String "028"%char "5") = None
  /\ Py.int_of_str (String "160"%char "5") = Some 5.
Proof. split; reflexivity. Qed.
Example int_of_text_ex :
  map Redis.int_of_text ["0"; "-12"; "41"; "-0"; "007"; "+5"; " 5"; "1_000"; "abc"]
  = [Some 0; Some (-12); Some 41; None; None; None; None; None; None].
Proof. reflexivity. Qed.
Example int_of_str_ex3 :
  map Py.int_of_str [EmptyString ; "abc" ; "1__0" ; "_1" ; "1_" ; "+-5" ; "- 5" ; "1.5" ; "0x10"]
  = [None; None; None; None; None; None; None; None; None].
Proof. reflexivity. Qed.
Example repr_int_ex : map Py.repr_int [0; 7; -12; 6379] = ["0"; "7"; "-12"; "6379"].
Proof. reflexivity. Qed.
Example repr_str_ex1 : Py.repr_str "abc" = "'abc'".
Proof. reflexivity. Qed.
Example repr_str_ex3 :
  Py.repr_str (String "010"%char "a") = String "'" (String Py.backslash "na'").
Proof. reflexivity. Qed.
Example repr_str_ex2 :
  Py.repr_str "it's" = String Py.double_quote "it's" +:+ String Py.double_quote EmptyString.
Proof. reflexivity. Qed.

Example run_ex1 :
  fst (run get_count (snd (run increment (snd (run increment empty_server)))))
  = inr ([("count", JInt 2)], 200).
Proof. vm_compute. reflexivity. Qed.

Example run_ex2 :
  run increment unreachable_server
  = (inr ([("error",
            JStr "Error 111 connecting to localhost:6379. Connection refused.")], 500),
     unreachable_server).
Proof. reflexivity. Qed.

Example run_ex3 :
  fst (run health empty_server) = inr ([("status", JStr "healthy")], 200)
  /\ fst (run health unreachable_server)
     = inr ([("status", JStr "unhealthy");
             ("error",
              JStr "Error 111 connecting to localhost:6379. Connection refused.")], 503).
Proof. split; reflexivity. Qed.

(** An increment on a text that is no integer is refused by the server. *)
Example run_ex4 :
  fst (run increment garbled_server)
  = inr ([("error", JStr "value is not an integer or out of range")], 500).
Proof. reflexivity. Qed.

(** Three increments in flight; the third thread reaches the store first. *)
Example interleave_ex :
  snd (interleave [2; 0; 1]%nat (reset_server, replicate 3 increment))
  = [Ret ([("count", JInt 2)], 200); Ret ([("count", JInt 3)], 200);
     Ret ([("count", JInt 1)], 200)].
Proof. reflexivity. Qed.

Example config_ex :
  redis_port {[ "REDIS_PORT" := "6380" ]} = inr 6380
  /\ redis_host {[ "REDIS_HOST" := "redis" ]} = Py.Str "redis".
Proof. split; reflexivity. Qed.

(** ** Decimal text *)

Lemma is_digit_plain c :
  is_digit c = true -> Py.is_space c = false /\ Ascii.eqb c "_" = false.
Proof.
  destruct c as [[] [] [] [] [] [] [] []]; vm_compute; intuition congruence.
Qed.

Lemma is_digit_narrow c : is_digit c = true -> Py.is_wide_space c = false.
Proof. unfold is_digit, Py.is_wide_space. lia. Qed.

Lemma to_ascii_digits s : all_digits s = true -> Py.to_ascii s = s.
Proof.
  induction s as [|c r IH]; simpl; [done|].
  intros [Hc Hr]%andb_prop. by rewrite (is_digit_narrow c Hc), (IH Hr).
Qed.

Lemma to_ascii_minus s :
  all_digits s = true -> Py.to_ascii (String "-" s) = String "-" s.
Proof.
  intros H.
  change (Py.to_ascii (String "-" s)) with (String "-" (Py.to_ascii s)).
  by rewrite (to_ascii_digits s H).
Qed.

Lemma all_digits_uint d : all_digits (NilEmpty.string_of_uint d) = true.
Proof. induction d; simpl; auto. Qed.

Lemma lstrip_digits s : all_digits s = true -> Py.lstrip s = s.
Proof.
  destruct s as [|c r]; simpl; [done|].
  intros [Hc _]%andb_prop. by destruct (is_digit_plain c Hc) as [-> _].
Qed.

Lemma rstrip_digits s : all_digits s = true -> Py.rstrip s = s.
Proof.
  induction s as [|c r IH]; simpl; [done|].
  intros [Hc Hr]%andb_prop. rewrite (IH Hr).
  destruct (is_digit_plain c Hc) as [-> _]. by destruct r.
Qed.

Lemma ungroup_digits s : all_digits s = true -> Py.ungroup false s = Some s.
Proof.
  induction s as [|c r IH]; simpl; [done|].
  intros [Hc Hr]%andb_prop.
  destruct (is_digit_plain c Hc) as [_ ->]. by rewrite (IH Hr).
Qed.

Lemma ungroup_digits_first c r :
  all_digits (String c r) = true -> Py.ungroup true (String c r) = Some (String c r).
Proof.
  simpl. intros [Hc Hr]%andb_prop.
  destruct (is_digit_plain c Hc) as [_ ->]. by rewrite (ungroup_digits r Hr).
Qed.

Lemma digits_uint d :
  d <> Decimal.Nil -> Py.digits (NilEmpty.string_of_uint d) = Some (Z.of_uint d).
Proof.
  intros Hd. unfold Py.digits.
  pose proof (all_digits_uint d) as Hall.
  pose proof (NilZero.usu d Hd) as Hus.
  assert (NilZero.string_of_uint d = NilEmpty.string_of_uint d) as E
    by (by destruct d).
  rewrite E in Hus.
  destruct (NilEmpty.string_of_uint d) as [|c r] eqn:Hs.
  - by destruct d.
  - rewrite (ungroup_digits_first c r Hall).
    change (Z.of_uint <$> NilZero.uint_of_string (String c r) = Some (Z.of_uint d)).
    by rewrite Hus.
Qed.

Lemma int_of_str_digits c r :
  all_digits (String c r) = true ->
  Py.int_of_str (String c r) = Py.digits (String c r).
Proof.
  intros Hall. unfold Py.int_of_str, Py.strip.
  rewrite (to_ascii_digits _ Hall), (lstrip_digits _ Hall), (rstrip_digits _ Hall).
  simpl in Hall. apply andb_prop in Hall as [Hc _].
  destruct c as [[] [] [] [] [] [] [] []]; try reflexivity; discriminate Hc.
Qed.

Lemma int_of_str_minus c r :
  all_digits (String c r) = true ->
  Py.int_of_str (String "-" (String c r)) = Z.opp <$> Py.digits (String c r).
Proof.
  intros Hall. unfold Py.int_of_str, Py.strip. rewrite (to_ascii_minus _ Hall).
  change (Py.lstrip (String "-" (String c r))) with (String "-" (String c r)).
  assert (Py.rstrip (String "-" (String c r)) = String "-" (String c r)) as ->; [|done].
  change (match Py.rstrip (String c r) with
          | EmptyString => if Py.is_space "-" then EmptyString else String "-" EmptyString
          | r' => String "-" r'
          end = String "-" (String c r)).
  by rewrite (rstrip_digits _ Hall).
Qed.

(** [int] reads back what [repr] writes. *)
Lemma int_of_str_repr z : Py.int_of_str (Py.repr_int z) = Some z.
Proof.
  destruct z as [|p|p]; [reflexivity| |].
  - unfold Py.repr_int. cbn [Z.to_int NilZero.string_of_int].
    pose proof (Unsigned.to_uint_nonnil p) as Hd.
    assert (NilZero.string_of_uint (Pos.to_uint p)
            = NilEmpty.string_of_uint (Pos.to_uint p)) as ->
      by (by destruct (Pos.to_uint p)).
    pose proof (all_digits_uint (Pos.to_uint p)) as Hall.
    pose proof (digits_uint _ Hd) as Hdig.
    destruct (NilEmpty.string_of_uint (Pos.to_uint p)) as [|c r] eqn:Hs.
    { by destruct (Pos.to_uint p). }
    rewrite (int_of_str_digits c r Hall), Hdig. f_equal.
    exact (DecimalZ.of_to (Zpos p)).
  - unfold Py.repr_int. cbn [Z.to_int NilZero.string_of_int].
    pose proof (Unsigned.to_uint_nonnil p) as Hd.
    assert (NilZero.string_of_uint (Pos.to_uint p)
            = NilEmpty.string_of_uint (Pos.to_uint p)) as ->
      by (by destruct (Pos.to_uint p)).
    pose proof (all_digits_uint (Pos.to_uint p)) as Hall.
    pose proof (digits_uint _ Hd) as Hdig.
    destruct (NilEmpty.string_of_uint (Pos.to_uint p)) as [|c r] eqn:Hs.
    { by destruct (Pos.to_uint p). }
    rewrite (int_of_str_minus c r Hall), Hdig. simpl. f_equal.
    exact (DecimalZ.of_to (Zneg p)).
Qed.

(** The server reads back the text of an integer. *)
Lemma int_of_text_repr z : Redis.int_of_text (Py.repr_int z) = Some z.
Proof.
  unfold Redis.int_of_text, Py.repr_int.
  rewrite NilZero.isi.
  - rewrite DecimalZ.of_to. by rewrite String.eqb_refl.
  - destruct z; simpl; [done| |done].
    intros [= H]. by apply (Unsigned.to_uint_nonnil p).
  - destruct z; simpl; [done|done|].
    intros [= H]. by apply (Unsigned.to_uint_nonnil p).
Qed.

(** Whatever the server reads as an integer is the text of that integer. *)
Lemma int_of_text_Some t n : Redis.int_of_text t = Some n -> t = Py.repr_int n.
Proof.
  unfold Redis.int_of_text.
  destruct (NilZero.int_of_string t) as [d|]; [|done].
  destruct (String.eqb_spec (Py.repr_int (Z.of_int d)) t) as [E|]; [|done].
  by intros [= <-].
Qed.


(** ** The store commands *)

Section Store.

Variable s : Redis.server.

Lemma exec_fault {R : Type} (c : cmd R) (e : Py.exn) :
  Redis.fault s = Some e -> Redis.exec c s = (inl e, s).
Proof. intros H. unfold Redis.exec. by rewrite H. Qed.

Lemma exec_get (key : string) :
  Redis.fault s = None -> Redis.exec (GET key) s = (inr (Redis.db s !! key), s).
Proof. intros H. unfold Redis.exec. by rewrite H. Qed.

Lemma exec_ping : Redis.fault s = None -> Redis.exec PING s = (inr true, s).
Proof. intros H. unfold Redis.exec. by rewrite H. Qed.

Lemma exec_set (key : string) (v : Py.value) :
  Redis.fault s = None ->
  Redis.exec (SET key v) s
  = (inr true, Redis.Server None (<[key := Redis.encode v]> (Redis.db s))).
Proof. intros H. unfold Redis.exec. by rewrite H. Qed.

Lemma exec_incr_absent (key : string) :
  Redis.fault s = None -> Redis.db s !! key = None ->
  Redis.exec (INCR key) s
  = (inr 1, Redis.Server None (<[key := Py.repr_int 1]> (Redis.db s))).
Proof. intros H Hk. unfold Redis.exec. by rewrite H, Hk. Qed.

Lemma exec_incr_int (key : string) (n : Z) :
  Redis.fault s = None -> Redis.db s !! key = Some (Py.repr_int n) ->
  Redis.exec (INCR key) s
  = (inr (n + 1), Redis.Server None (<[key := Py.repr_int (n + 1)]> (Redis.db s))).
Proof. intros H Hk. unfold Redis.exec. by rewrite H, Hk, int_of_text_repr. Qed.

(** GET and PING leave the store as it is. *)
Lemma exec_get_frame (key : string) : snd (Redis.exec (GET key) s) = s.
Proof. unfold Redis.exec. by destruct (Redis.fault s). Qed.

Lemma exec_ping_frame : snd (Redis.exec PING s) = s.
Proof. unfold Redis.exec. by destruct (Redis.fault s). Qed.

End Store.

(** ** The handlers, one command each *)

Section Handlers.

Variable s : Redis.server.

Lemma run_increment :
  run increment s
  = match Redis.exec (INCR "counter") s with
    | (inr count, s') => (inr ([("count", JInt count)], 200), s')
    | (inl e, s') => (inr ([("error", JStr (Py.str e))], 500), s')
    end.
Proof.
  unfold increment. simpl.
  by destruct (Redis.exec (INCR "counter") s) as [[e|count] s'].
Qed.

Lemma run_get_count :
  run get_count s
  = match Redis.exec (GET "counter") s with
    | (inr None, s') => (inr ([("count", JInt 0)], 200), s')
    | (inr (Some text), s') =>
        match Py.int (Py.Str text) with
        | inr n => (inr ([("count", JInt n)], 200), s')
        | inl e => (inr ([("error", JStr (Py.str e))], 500), s')
        end
    | (inl e, s') => (inr ([("error", JStr (Py.str e))], 500), s')
    end.
Proof.
  unfold get_count. simpl.
  destruct (Redis.exec (GET "counter") s) as [[e|[text|]] s']; simpl; try done.
  by destruct (Py.int_of_str text).
Qed.

Lemma run_reset :
  run reset s
  = match Redis.exec (SET "counter" (Py.Int 0)) s with
    | (inr _, s') => (inr ([("count", JInt 0)], 200), s')
    | (inl e, s') => (inr ([("error", JStr (Py.str e))], 500), s')
    end.
Proof.
  unfold reset. simpl.
  by destruct (Redis.exec (SET "counter" (Py.Int 0)) s) as [[e|b] s'].
Qed.

Lemma run_health :
  run health s
  = match Redis.exec PING s with
    | (inr _, s') => (inr ([("status", JStr "healthy")], 200), s')
    | (inl e, s') =>
        (inr ([("status", JStr "unhealthy"); ("error", JStr (Py.str e))], 503), s')
    end.
Proof.
  unfold health. simpl.
  by destruct (Redis.exec PING s) as [[e|b] s'].
Qed.

(** A handler whose command fails answers with the message of the
    failure and leaves the store alone. *)
Lemma run_fault (o : op) (e : Py.exn) :
  Redis.fault s = Some e ->
  run (handler o) s
  = (inr (match o with
          | Health => ([("status", JStr "unhealthy"); ("error", JStr (Py.str e))], 503)
          | _ => ([("error", JStr (Py.str e))], 500)
          end), s).
Proof.
  intros H. destruct o; cbn [handler].
  - by rewrite run_increment, (exec_fault s _ e H).
  - by rewrite run_get_count, (exec_fault s _ e H).
  - by rewrite run_reset, (exec_fault s _ e H).
  - by rewrite run_health, (exec_fault s _ e H).
Qed.

Lemma run_get_count_frame : snd (run get_count s) = s.
Proof.
  rewrite run_get_count.
  pose proof (exec_get_frame s "counter") as H.
  destruct (Redis.exec (GET "counter") s) as [[e|[text|]] s']; simpl in *; try done.
  by destruct (Py.int_of_str text).
Qed.

Lemma run_health_frame : snd (run health s) = s.
Proof.
  rewrite run_health.
  pose proof (exec_ping_frame s) as H.
  by destruct (Redis.exec PING s) as [[e|b] s'].
Qed.

(** No exception escapes a handler. *)
Lemma run_handler_returns (o : op) : exists r, fst (run (handler o) s) = inr r.
Proof.
  destruct o; cbn [handler].
  - rewrite run_increment.
    destruct (Redis.exec (INCR "counter") s) as [[e|count] s']; eauto.
  - rewrite run_get_count.
    destruct (Redis.exec (GET "counter") s) as [[e|[text|]] s']; eauto.
    destruct (Py.int (Py.Str text)); eauto.
  - rewrite run_reset.
    destruct (Redis.exec (SET "counter" (Py.Int 0)) s) as [[e|b] s']; eauto.
  - rewrite run_health.
    destruct (Redis.exec PING s) as [[e|b] s']; eauto.
Qed.

End Handlers.

(** ** Sequential behaviour *)

Lemma run_get_count_int (s : Redis.server) (n : Z) :
  Redis.fault s = None ->
  Redis.db s !! "counter" = Some (Py.repr_int n) ->
  run get_count s = (inr ([("count", JInt n)], 200), s).
Proof.
  intros Hf Hc. rewrite run_get_count, (exec_get s _ Hf), Hc.
  unfold Py.int. by rewrite int_of_str_repr.
Qed.

Lemma run_increment_int (s : Redis.server) (n : Z) :
  Redis.fault s = None ->
  Redis.db s !! "counter" = Some (Py.repr_int n) ->
  run increment s
  = (inr ([("count", JInt (n + 1))], 200),
     Redis.Server None (<["counter" := Py.repr_int (n + 1)]> (Redis.db s))).
Proof. intros Hf Hc. by rewrite run_increment, (exec_incr_int s _ n Hf Hc). Qed.

(** [n] increments in a row from the value [k]: they answer [k+1], ...,
    [k+n] and leave [k+n] in the store. *)
Lemma serve_all_increment (n : nat) : forall (s : Redis.server) (k : Z),
  Redis.fault s = None ->
  Redis.db s !! "counter" = Some (Py.repr_int k) ->
  fst (serve_all increment n s)
  = map (fun i : nat => inr ([("count", JInt (k + Z.of_nat i))], 200)) (seq 1 n)
  /\ Redis.fault (snd (serve_all increment n s)) = None
  /\ Redis.db (snd (serve_all increment n s)) !! "counter"
     = Some (Py.repr_int (k + Z.of_nat n)).
Proof.
  induction n as [|n IH]; intros s k Hf Hc.
  - simpl. by rewrite Z.add_0_r.
  - cbn [serve_all]. rewrite (run_increment_int s k Hf Hc).
    set (s1 := Redis.Server None _).
    destruct (IH s1 (k + 1)) as (Hrs & Hf' & Hc'); [done| |].
    { subst s1. simpl. by rewrite lookup_insert_eq. }
    destruct (serve_all increment n s1) as [rs s2]. cbn [fst snd] in *.
    split_and!; [|done|].
    + cbn [seq map]. rewrite <- (seq_shift n 1), map_map, Hrs. f_equal.
      apply map_ext. intros i. do 5 f_equal. lia.
    + rewrite Hc'. do 2 f_equal. lia.
Qed.

(** C1: after a reset (the counter holds 0 and the store answers), [n]
    increments followed by a read of the count return [{"count": n}] with
    status 200, for every [n]. *)
Theorem count_after_increments (n : nat) (s : Redis.server) :
  Redis.fault s = None ->
  Redis.db s !! "counter" = Some "0" ->
  fst (run get_count (snd (serve_all increment n s)))
  = inr ([("count", JInt (Z.of_nat n))], 200).
Proof.
  intros Hf Hc.
  destruct (serve_all_increment n s 0 Hf Hc) as (_ & Hf' & Hc').
  by rewrite (run_get_count_int _ _ Hf' Hc').
Qed.

Lemma count_after_increments_witness :
  fst (run get_count (snd (serve_all increment 3 reset_server)))
  = inr ([("count", JInt 3)], 200).
Proof. apply (count_after_increments 3 reset_server); reflexivity. Defined.

(** C2: when the counter key has never been set, reading the count takes
    the absent key as 0 and returns [{"count": 0}] with status 200. *)
Theorem count_of_unset_key (s : Redis.server) :
  Redis.fault s = None ->
  Redis.db s !! "counter" = None ->
  run get_count s = (inr ([("count", JInt 0)], 200), s).
Proof. intros Hf Hc. by rewrite run_get_count, (exec_get s _ Hf), Hc. Qed.

Lemma count_of_unset_key_witness :
  run get_count empty_server = (inr ([("count", JInt 0)], 200), empty_server).
Proof. apply count_of_unset_key; reflexivity. Defined.

(** C3: whatever the store held before (any text under the counter key, or
    nothing), a reset writes 0 under the key and returns [{"count": 0}] with
    status 200, and a read of the count right after returns [{"count": 0}]. *)
Theorem reset_then_count (s : Redis.server) :
  Redis.fault s = None ->
  fst (run reset s) = inr ([("count", JInt 0)], 200)
  /\ Redis.db (snd (run reset s)) !! "counter" = Some "0"
  /\ fst (run get_count (snd (run reset s))) = inr ([("count", JInt 0)], 200).
Proof.
  intros Hf. rewrite run_reset, (exec_set s _ _ Hf). cbn [fst snd Redis.db].
  change (Redis.encode (Py.Int 0)) with (Py.repr_int 0).
  split_and!; [done|by rewrite lookup_insert_eq|].
  rewrite (run_get_count_int _ 0); [done|done|].
  cbn [Redis.db]. by rewrite lookup_insert_eq.
Qed.

Lemma reset_then_count_witness :
  fst (run reset stale_server) = inr ([("count", JInt 0)], 200)
  /\ Redis.db (snd (run reset stale_server)) !! "counter" = Some "0"
  /\ fst (run get_count (snd (run reset stale_server))) = inr ([("count", JInt 0)], 200).
Proof. apply (reset_then_count stale_server); reflexivity. Defined.

(** ** Failures *)

(** C4: the health check returns [{"status": "healthy"}] with status 200
    exactly when the liveness probe succeeds, and
    [{"status": "unhealthy", "error": message}] with status 503, the message
    being that of the failure, exactly when the probe fails; it returns no
    other status. *)
Theorem health_follows_probe (s : Redis.server) :
  let probe := fst (Redis.exec PING s) in
  let answer := fst (run health s) in
  ((exists b, probe = inr b) <-> answer = inr ([("status", JStr "healthy")], 200))
  /\ ((exists e, probe = inl e)
      <-> exists msg,
            answer = inr ([("status", JStr "unhealthy"); ("error", JStr msg)], 503))
  /\ (forall e, probe = inl e ->
        answer = inr ([("status", JStr "unhealthy"); ("error", JStr (Py.str e))], 503))
  /\ (exists body status,
        answer = inr (body, status) /\ (status = 200 \/ status = 503)).
Proof.
  cbn zeta. rewrite run_health.
  destruct (Redis.exec PING s) as [[e|b] s']; cbn [fst].
  - split_and!.
    + split; [intros [b [=]]|intros [=]].
    + split; eauto.
    + by intros e' [= <-].
    + eauto 6.
  - split_and!.
    + split; eauto.
    + split; [intros [e [=]]|intros [msg [=]]].
    + intros e [=].
    + eauto 6.
Qed.

(** C5, as the code has it: when a command fails with the exception [e],
    each of increment, get-count and reset returns status 500 with the body
    [{"error": str(e)}], the message of the failure as it is, so a message
    that is not empty whenever the failure has one; the exception does not
    escape the handler and the store is as before, ready for the next
    request. *)
Theorem store_failure_is_reported (s : Redis.server) (e : Py.exn) (o : op) :
  Redis.fault s = Some e ->
  o <> Health ->
  run (handler o) s = (inr ([("error", JStr (Py.str e))], 500), s).
Proof. intros Hf Ho. rewrite (run_fault s o e Hf). by destruct o. Qed.

Lemma store_failure_is_reported_witness :
  run (handler Increment) unreachable_server
  = (inr ([("error", JStr (Py.str refused))], 500), unreachable_server).
Proof.
  apply (store_failure_is_reported unreachable_server refused Increment);
    [reflexivity|discriminate].
Defined.

(** C5 does not hold as stated: a failure whose message is empty is
    reported with an empty ["error"] field. *)
Lemma store_failure_empty_message :
  Redis.fault silent_server = Some (ConnectionError EmptyString)
  /\ fst (run increment silent_server) = inr ([("error", JStr EmptyString)], 500)
  /\ ~ (exists msg, msg <> EmptyString
         /\ fst (run increment silent_server) = inr ([("error", JStr msg)], 500)).
Proof.
  split_and!; [reflexivity|reflexivity|].
  intros (msg & Hne & Heq). vm_compute in Heq. congruence.
Qed.

(** C10: when the counter key holds a text [int] does not accept, reading
    the count catches the [ValueError] and returns status 500 with a JSON
    error body, not status 200; nothing escapes and the store is as
    before. *)
Theorem count_of_bad_text (s : Redis.server) (text : string) :
  Redis.fault s = None ->
  Redis.db s !! "counter" = Some text ->
  Py.int_of_str text = None ->
  run get_count s
  = (inr ([("error",
            JStr ("invalid literal for int() with base 10: " +:+ Py.repr_str text))],
          500), s).
Proof.
  intros Hf Hc Hi. rewrite run_get_count, (exec_get s _ Hf), Hc.
  unfold Py.int. by rewrite Hi.
Qed.

Lemma count_of_bad_text_witness :
  run get_count garbled_server
  = (inr ([("error", JStr "invalid literal for int() with base 10: 'abc'")], 500),
     garbled_server).
Proof. apply (count_of_bad_text garbled_server "abc"); reflexivity. Defined.

(** ** Frame *)

(** C9: reading the count and checking health never change the store,
    whether the command succeeds or fails. *)
Theorem reads_leave_store (s : Redis.server) :
  snd (run get_count s) = s /\ snd (run health s) = s.
Proof. split; [apply run_get_count_frame|apply run_health_frame]. Qed.

(** ** Configuration *)

(** C8: a variable that is not set takes its default: [REDIS_HOST] is
    [localhost], [REDIS_PORT] is 6379 and [PORT] is 5000. *)
Theorem config_defaults (environ : gmap string string) :
  (environ !! "REDIS_HOST" = None -> redis_host environ = Py.Str "localhost")
  /\ (environ !! "REDIS_PORT" = None -> redis_port environ = inr 6379)
  /\ (environ !! "PORT" = None -> port environ = inr 5000).
Proof.
  unfold redis_host, redis_port, port, Py.environ_get.
  split_and!; by intros ->.
Qed.

Lemma config_defaults_witness :
  redis_host ∅ = Py.Str "localhost" /\ redis_port ∅ = inr 6379 /\ port ∅ = inr 5000.
Proof.
  destruct (config_defaults ∅) as (Hh & Hr & Hp).
  split_and!; [apply Hh|apply Hr|apply Hp]; reflexivity.
Defined.

(** ** The counter is never negative *)

Lemma counter_ok_insert (s : Redis.server) (f : option Py.exn) (n : Z) :
  0 <= n ->
  counter_ok (Redis.Server f (<["counter" := Py.repr_int n]> (Redis.db s))) = true.
Proof.
  intros Hn. unfold counter_ok. cbn [Redis.db].
  rewrite lookup_insert_eq, int_of_text_repr. lia.
Qed.

Lemma counter_ok_incr (s : Redis.server) :
  counter_ok s = true -> counter_ok (snd (Redis.exec (INCR "counter") s)) = true.
Proof.
  intros Hok. unfold Redis.exec.
  destruct (Redis.fault s) as [e|]; [done|].
  unfold counter_ok in Hok.
  destruct (Redis.db s !! "counter") as [t|] eqn:Ht; cbn [snd].
  - destruct (Redis.int_of_text t) as [n|] eqn:Hn; [|done].
    apply counter_ok_insert. lia.
  - by apply counter_ok_insert.
Qed.

Lemma counter_ok_set_zero (s : Redis.server) :
  counter_ok (snd (Redis.exec (SET "counter" (Py.Int 0)) s)) = true
  \/ snd (Redis.exec (SET "counter" (Py.Int 0)) s) = s.
Proof.
  unfold Redis.exec. destruct (Redis.fault s) as [e|]; [by right|left].
  by apply (counter_ok_insert s None 0).
Qed.

(** Each of the four operations keeps a counter that is absent or not
    negative that way. *)
Lemma counter_ok_handler (o : op) (s : Redis.server) :
  counter_ok s = true -> counter_ok (snd (run (handler o) s)) = true.
Proof.
  intros Hok. destruct o; cbn [handler].
  - rewrite run_increment.
    pose proof (counter_ok_incr s Hok) as H.
    by destruct (Redis.exec (INCR "counter") s) as [[e|count] s'].
  - by rewrite run_get_count_frame.
  - rewrite run_reset.
    destruct (counter_ok_set_zero s) as [H|H];
      destruct (Redis.exec (SET "counter" (Py.Int 0)) s) as [[e|b] s'];
      cbn [snd] in *; congruence.
  - by rewrite run_health_frame.
Qed.

Lemma counter_ok_step (ev : event) (s : Redis.server) :
  counter_ok s = true -> counter_ok (step s ev) = true.
Proof.
  destruct ev as [o|f]; cbn [step]; [apply counter_ok_handler|done].
Qed.

Lemma counter_ok_states (evs : list event) : forall s : Redis.server,
  counter_ok s = true -> Forall (fun s' => counter_ok s' = true) (states s evs).
Proof.
  induction evs as [|ev evs IH]; intros s Hok; cbn [states].
  - by constructor.
  - constructor; [done|]. by apply IH, counter_ok_step.
Qed.

(** C6: from a store where the counter has not been set, through any
    sequence of the four operations (and of changes of the connection), the
    counter, once set, is at every moment the text of an integer that is not
    negative, and none of the four operations makes it negative. *)
Theorem counter_never_negative (evs : list event) (s0 : Redis.server) :
  Redis.db s0 !! "counter" = None ->
  Forall (fun s =>
            match Redis.db s !! "counter" with
            | None => True
            | Some text => exists n, text = Py.repr_int n /\ 0 <= n
            end
            /\ forall o, counter_ok (snd (run (handler o) s)) = true)
         (states s0 evs).
Proof.
  intros H0.
  assert (counter_ok s0 = true) as Hok by (unfold counter_ok; by rewrite H0).
  eapply Forall_impl; [apply (counter_ok_states evs s0 Hok)|].
  intros s Hs. split; [|intros o; by apply counter_ok_handler].
  unfold counter_ok in Hs.
  destruct (Redis.db s !! "counter") as [text|]; [|done].
  destruct (Redis.int_of_text text) as [n|] eqn:Hn; [|done].
  exists n. split; [by apply int_of_text_Some|lia].
Qed.

Lemma counter_never_negative_witness :
  Forall (fun s =>
            match Redis.db s !! "counter" with
            | None => True
            | Some text => exists n, text = Py.repr_int n /\ 0 <= n
            end
            /\ forall o, counter_ok (snd (run (handler o) s)) = true)
         (states empty_server
            [Request GetCount; Request Increment; Net (Some refused);
             Request Increment; Request Reset; Net None; Request Reset;
             Request Increment; Request Health; Request Increment]).
Proof. apply counter_never_negative. reflexivity. Defined.

(** ** Increments in flight together *)

Section Interleaving.

Variable n : nat.

Lemma sched_step_increment (s : Redis.server) (ts : pool) (i : nat) (k : Z) :
  ts !! i = Some increment ->
  Redis.fault s = None ->
  Redis.db s !! "counter" = Some (Py.repr_int k) ->
  sched_step (s, ts) i
  = (Redis.Server None (<["counter" := Py.repr_int (k + 1)]> (Redis.db s)),
     <[i := Ret ([("count", JInt (k + 1))], 200)]> ts).
Proof.
  intros Hi Hf Hc. unfold sched_step. rewrite Hi.
  unfold increment. cbn [try_except mbind prog_bind bind Redis.incr call].
  by rewrite (exec_incr_int s _ k Hf Hc).
Qed.

Lemma sched_step_finished (s : Redis.server) (ts : pool) (i : nat) (r : response) :
  ts !! i = Some (Ret r) -> sched_step (s, ts) i = (s, ts).
Proof. intros Hi. unfold sched_step. by rewrite Hi. Qed.

Lemma sched_step_none (s : Redis.server) (ts : pool) (i : nat) :
  ts !! i = None -> sched_step (s, ts) i = (s, ts).
Proof. intros Hi. unfold sched_step. by rewrite Hi. Qed.

Lemma pool_inv_init (s : Redis.server) :
  Redis.fault s = None ->
  Redis.db s !! "counter" = Some "0" ->
  pool_inv n (s, replicate n increment).
Proof.
  intros Hf Hc. exists (replicate n None).
  assert (omap id (replicate n (@None Z)) = []) as E
    by (clear; induction n; simpl; auto).
  rewrite E. cbn [fst snd]. split_and!; try done.
  - by rewrite fmap_replicate.
  - by rewrite length_replicate.
  - constructor.
Qed.

Lemma omap_insert_none (g : list (option Z)) (k : Z) : forall i : nat,
  g !! i = Some None -> omap id (<[i := Some k]> g) ≡ₚ k :: omap id g.
Proof.
  induction g as [|o g IH]; intros [|i] Hi; simplify_eq/=; [done|].
  destruct o as [c|]; rewrite (IH i Hi); [apply perm_swap|done].
Qed.

Lemma pool_inv_step (st : Redis.server * pool) (i : nat) :
  pool_inv n st -> pool_inv n (sched_step st i).
Proof.
  destruct st as [s ts]. intros (g & Hts & Hlen & Hf & Hc & Hnd & Hb).
  cbn [fst snd] in *. subst ts.
  pose proof (list_lookup_fmap thread_of g i) as Hi.
  destruct (g !! i) as [[c|]|] eqn:Hg; cbn [fmap option_fmap option_map thread_of] in Hi.
  - rewrite (sched_step_finished s _ i _ Hi). exists g. by split_and!.
  - rewrite (sched_step_increment s _ i _ Hi Hf Hc).
    pose proof (lookup_lt_Some _ _ _ Hg) as Hlt.
    exists (<[i := Some (Z.of_nat (List.length (omap id g)) + 1)]> g).
    assert (omap id (<[i := Some (Z.of_nat (List.length (omap id g)) + 1)]> g)
            ≡ₚ (Z.of_nat (List.length (omap id g)) + 1) :: omap id g) as Hp.
    { by apply omap_insert_none. }
    assert (List.length (omap id (<[i := Some (Z.of_nat (List.length (omap id g)) + 1)]> g))
            = S (List.length (omap id g))) as Hl by (by rewrite Hp).
    cbn [fst snd Redis.fault Redis.db]. split_and!.
    + by rewrite list_fmap_insert.
    + by rewrite length_insert.
    + done.
    + rewrite lookup_insert_eq, Hl. do 2 f_equal. lia.
    + rewrite Hp. apply NoDup_cons. split; [|done].
      intros Hin. rewrite Forall_forall in Hb. apply Hb in Hin. lia.
    + rewrite Hl, Hp. constructor; [lia|].
      eapply Forall_impl; [exact Hb|]. intros c ?. simpl in *. lia.
  - rewrite (sched_step_none s _ i Hi). exists g. by split_and!.
Qed.

Lemma pool_inv_interleave (sched : list nat) :
  forall st, pool_inv n st -> pool_inv n (interleave sched st).
Proof.
  unfold interleave.
  induction sched as [|i sched IH]; intros st Hst; cbn [foldl]; [done|].
  by apply IH, pool_inv_step.
Qed.

Lemma all_finished (g : list (option Z)) :
  forallb finished (thread_of <$> g) = true -> g = Some <$> omap id g.
Proof.
  induction g as [|[c|] g IH]; cbn; [done| |done].
  intros H. f_equal. by apply IH.
Qed.

End Interleaving.

(** C7: [n] increments served together from a reset counter, their commands
    reaching the store in any order: once all have answered, the counter is
    [n], every one of them has answered 200 with a count, and no two counts
    are the same. *)
Theorem concurrent_increments (n : nat) (sched : list nat)
    (s0 s : Redis.server) (ts : pool) :
  Redis.fault s0 = None ->
  Redis.db s0 !! "counter" = Some "0" ->
  interleave sched (s0, replicate n increment) = (s, ts) ->
  forallb finished ts = true ->
  Redis.db s !! "counter" = Some (Py.repr_int (Z.of_nat n))
  /\ fst (run get_count s) = inr ([("count", JInt (Z.of_nat n))], 200)
  /\ exists counts : list Z,
       ts = map (fun count => Ret ([("count", JInt count)], 200)) counts
       /\ List.length counts = n
       /\ NoDup counts.
Proof.
  intros Hf Hc Hrun Hfin.
  pose proof (pool_inv_interleave n sched _ (pool_inv_init n s0 Hf Hc)) as Hinv.
  rewrite Hrun in Hinv. destruct Hinv as (g & Hts & Hlen & Hf' & Hc' & Hnd & _).
  cbn [fst snd] in *. subst ts.
  pose proof (all_finished g Hfin) as Hg.
  assert (List.length (omap id g) = n) as Hl.
  { rewrite <- Hlen. rewrite Hg at 2. by rewrite length_fmap. }
  rewrite Hl in Hc'. split_and!; [done| |].
  - by rewrite (run_get_count_int s _ Hf' Hc').
  - exists (omap id g). split_and!; [|done|done].
    rewrite Hg at 1. by rewrite <- list_fmap_compose.
Qed.

Lemma concurrent_increments_witness :
  Redis.db (fst (interleave [2; 0; 1; 0]%nat (reset_server, replicate 3 increment)))
    !! "counter" = Some (Py.repr_int 3)
  /\ fst (run get_count
            (fst (interleave [2; 0; 1; 0]%nat (reset_server, replicate 3 increment))))
     = inr ([("count", JInt 3)], 200)
  /\ exists counts : list Z,
       snd (interleave [2; 0; 1; 0]%nat (reset_server, replicate 3 increment))
       = map (fun count => Ret ([("count", JInt count)], 200)) counts
       /\ List.length counts = 3%nat
       /\ NoDup counts.
Proof.
  apply (concurrent_increments 3 [2; 0; 1; 0]%nat reset_server);
    [reflexivity|reflexivity|apply surjective_pairing|reflexivity].
Defined.

(** * Further properties *)

(** ** What a handler can answer *)

(** Whatever the store holds and whether it answers or not, a handler
    returns: [{"count": n}] with 200 or [{"error": message}] with 500 for
    increment, get-count and reset (the count of a reset being 0), and the
    two health bodies with 200 and 503 for health. Nothing is raised. *)
Theorem handler_answers (o : op) (s : Redis.server) :
  exists resp : response,
    fst (run (handler o) s) = inr resp
    /\ match o with
       | Health =>
           resp = ([("status", JStr "healthy")], 200)
           \/ exists msg,
                resp = ([("status", JStr "unhealthy"); ("error", JStr msg)], 503)
       | Reset =>
           resp = ([("count", JInt 0)], 200)
           \/ exists msg, resp = ([("error", JStr msg)], 500)
       | _ =>
           (exists count, resp = ([("count", JInt count)], 200))
           \/ exists msg, resp = ([("error", JStr msg)], 500)
       end.
Proof.
  destruct o; cbn [handler].
  - rewrite run_increment.
    destruct (Redis.exec (INCR "counter") s) as [[e|count] s']; eauto 6.
  - rewrite run_get_count.
    destruct (Redis.exec (GET "counter") s) as [[e|[text|]] s']; eauto 6.
    destruct (Py.int (Py.Str text)); eauto 6.
  - rewrite run_reset.
    destruct (Redis.exec (SET "counter" (Py.Int 0)) s) as [[e|b] s']; eauto 6.
  - rewrite run_health.
    destruct (Redis.exec PING s) as [[e|b] s']; eauto 6.
Qed.

(** Each handler sends one command to the store and no second one,
    whatever the reply: INCR, GET and SET to 0 on the counter key, and
    PING. *)
Theorem one_command_each (o : op) (s : Redis.server) :
  commands (handler o) s
  = [match o with
     | Increment => AnyCmd (INCR "counter")
     | GetCount => AnyCmd (GET "counter")
     | Reset => AnyCmd (SET "counter" (Py.Int 0))
     | Health => AnyCmd PING
     end].
Proof.
  destruct o; cbn.
  - by destruct (Redis.exec (INCR "counter") s) as [[e|count] s'].
  - destruct (Redis.exec (GET "counter") s) as [[e|[text|]] s']; try done.
    cbn. by destruct (Py.int_of_str text).
  - by destruct (Redis.exec (SET "counter" (Py.Int 0)) s) as [[e|b] s'].
  - by destruct (Redis.exec PING s) as [[e|b] s'].
Qed.

(** ** What a handler touches *)

Lemma exec_frame {R : Type} (c : cmd R) (s : Redis.server) (key : string) :
  match c with
  | INCR k | SET k _ => k <> key
  | _ => True
  end ->
  Redis.db (snd (Redis.exec c s)) !! key = Redis.db s !! key.
Proof.
  intros Hk. unfold Redis.exec. destruct (Redis.fault s) as [e|]; [done|].
  destruct c as [k|k|k v|]; cbn [snd]; try done.
  - destruct (Redis.db s !! k) as [t|]; [destruct (Redis.int_of_text t)|];
      cbn [snd Redis.db]; try done; by rewrite lookup_insert_ne.
  - cbn [Redis.db]. by rewrite lookup_insert_ne.
Qed.

Lemma exec_fault_kept {R : Type} (c : cmd R) (s : Redis.server) :
  Redis.fault (snd (Redis.exec c s)) = Redis.fault s.
Proof.
  unfold Redis.exec. destruct (Redis.fault s) as [e|] eqn:Hf; [done|].
  destruct c as [k|k|k v|]; cbn [snd]; try done.
  destruct (Redis.db s !! k) as [t|]; [destruct (Redis.int_of_text t)|]; done.
Qed.

Lemma exec_key_kept {R : Type} (c : cmd R) (s : Redis.server) (key : string) :
  is_Some (Redis.db s !! key) -> is_Some (Redis.db (snd (Redis.exec c s)) !! key).
Proof.
  intros Hk. unfold Redis.exec. destruct (Redis.fault s) as [e|]; [done|].
  destruct c as [k|k|k v|]; cbn [snd]; try done.
  - destruct (Redis.db s !! k) as [t|]; [destruct (Redis.int_of_text t)|];
      cbn [snd Redis.db]; try done; rewrite lookup_insert; case_decide; eauto.
  - cbn [Redis.db]. rewrite lookup_insert. case_decide; eauto.
Qed.

(** The store after a handler, as the store after its command. *)
Lemma run_handler_store (o : op) (s : Redis.server) :
  snd (run (handler o) s)
  = match o with
    | Increment => snd (Redis.exec (INCR "counter") s)
    | GetCount => snd (Redis.exec (GET "counter") s)
    | Reset => snd (Redis.exec (SET "counter" (Py.Int 0)) s)
    | Health => snd (Redis.exec PING s)
    end.
Proof.
  destruct o; cbn [handler].
  - rewrite run_increment.
    by destruct (Redis.exec (INCR "counter") s) as [[e|count] s'].
  - rewrite run_get_count.
    destruct (Redis.exec (GET "counter") s) as [[e|[text|]] s']; try done.
    by destruct (Py.int (Py.Str text)).
  - rewrite run_reset.
    by destruct (Redis.exec (SET "counter" (Py.Int 0)) s) as [[e|b] s'].
  - rewrite run_health.
    by destruct (Redis.exec PING s) as [[e|b] s'].
Qed.

(** No handler writes a key other than the counter key, none changes what
    the connection does, and none removes the counter key once it is set. *)
Theorem handlers_write_counter_only (o : op) (s : Redis.server) :
  (forall key, key <> "counter" ->
     Redis.db (snd (run (handler o) s)) !! key = Redis.db s !! key)
  /\ Redis.fault (snd (run (handler o) s)) = Redis.fault s
  /\ (is_Some (Redis.db s !! "counter") ->
      is_Some (Redis.db (snd (run (handler o) s)) !! "counter")).
Proof.
  rewrite run_handler_store. split_and!.
  - intros key Hk. destruct o; apply exec_frame; try done; by intros <-.
  - destruct o; apply exec_fault_kept.
  - intros Hc. destruct o; by apply exec_key_kept.
Qed.

Lemma handlers_write_counter_only_witness :
  Redis.db (snd (run (handler Reset)
                   (Redis.Server None {[ "visits" := "7"; "counter" := "41" ]})))
    !! "visits" = Some "7"
  /\ is_Some (Redis.db (snd (run (handler Increment) stale_server)) !! "counter").
Proof.
  split.
  - destruct (handlers_write_counter_only Reset
                (Redis.Server None {[ "visits" := "7"; "counter" := "41" ]}))
      as (H & _ & _).
    rewrite (H "visits"); [reflexivity|discriminate].
  - destruct (handlers_write_counter_only Increment stale_server) as (_ & _ & H).
    apply H. eexists. reflexivity.
Defined.

Lemma exec_reads_key {R : Type} (c : cmd R) (s1 s2 : Redis.server) :
  Redis.fault s1 = Redis.fault s2 ->
  match c with
  | INCR k | GET k => Redis.db s1 !! k = Redis.db s2 !! k
  | _ => True
  end ->
  fst (Redis.exec c s1) = fst (Redis.exec c s2).
Proof.
  intros Hf Hk. unfold Redis.exec. rewrite <- Hf.
  destruct (Redis.fault s1) as [e|]; [done|].
  destruct c as [k|k|k v|]; cbn [fst]; try done.
  - rewrite <- Hk. destruct (Redis.db s1 !! k) as [t|]; [|done].
    by destruct (Redis.int_of_text t).
  - by rewrite Hk.
Qed.

(** What a handler answers depends on the store only through the state of
    the connection and the text under the counter key: two stores that agree
    on these get the same answer, whatever else they hold. *)
Theorem handlers_read_counter_only (o : op) (s1 s2 : Redis.server) :
  Redis.fault s1 = Redis.fault s2 ->
  Redis.db s1 !! "counter" = Redis.db s2 !! "counter" ->
  fst (run (handler o) s1) = fst (run (handler o) s2).
Proof.
  intros Hf Hc. destruct o; cbn [handler].
  - rewrite !run_increment.
    pose proof (exec_reads_key (INCR "counter") s1 s2 Hf Hc) as H.
    destruct (Redis.exec (INCR "counter") s1) as [[e1|n1] t1],
             (Redis.exec (INCR "counter") s2) as [[e2|n2] t2];
      cbn [fst] in *; congruence.
  - rewrite !run_get_count.
    pose proof (exec_reads_key (GET "counter") s1 s2 Hf Hc) as H.
    destruct (Redis.exec (GET "counter") s1) as [[e1|[x1|]] t1],
             (Redis.exec (GET "counter") s2) as [[e2|[x2|]] t2];
      cbn [fst] in *; try congruence.
    assert (x1 = x2) as -> by congruence.
    by destruct (Py.int (Py.Str x2)).
  - rewrite !run_reset.
    pose proof (exec_reads_key (SET "counter" (Py.Int 0)) s1 s2 Hf I) as H.
    destruct (Redis.exec (SET "counter" (Py.Int 0)) s1) as [[e1|n1] t1],
             (Redis.exec (SET "counter" (Py.Int 0)) s2) as [[e2|n2] t2];
      cbn [fst] in *; congruence.
  - rewrite !run_health.
    pose proof (exec_reads_key PING s1 s2 Hf I) as H.
    destruct (Redis.exec PING s1) as [[e1|n1] t1],
             (Redis.exec PING s2) as [[e2|n2] t2];
      cbn [fst] in *; congruence.
Qed.

Lemma handlers_read_counter_only_witness :
  fst (run (handler GetCount) (Redis.Server None {[ "visits" := "7"; "counter" := "41" ]}))
  = fst (run (handler GetCount) stale_server).
Proof. apply handlers_read_counter_only; reflexivity. Defined.

(** ** Reading the count *)

(** With the store answering, get-count returns with 200 the integer that
    [int] reads from the text under the key, in whatever form [int] accepts
    it (blanks around it, a sign, zeros in front, grouped digits). *)
Theorem count_of_int_text (s : Redis.server) (text : string) (n : Z) :
  Redis.fault s = None ->
  Redis.db s !! "counter" = Some text ->
  Py.int_of_str text = Some n ->
  run get_count s = (inr ([("count", JInt n)], 200), s).
Proof.
  intros Hf Hc Hi. rewrite run_get_count, (exec_get s _ Hf), Hc.
  unfold Py.int. by rewrite Hi.
Qed.

Lemma count_of_int_text_witness :
  run get_count (Redis.Server None {[ "counter" := " +0_042 " ]})
  = (inr ([("count", JInt 42)], 200), Redis.Server None {[ "counter" := " +0_042 " ]}).
Proof.
  apply (count_of_int_text (Redis.Server None {[ "counter" := " +0_042 " ]}) " +0_042 " 42);
    reflexivity.
Defined.

(** ** While the store fails *)

Lemma serve_events_fault (e : Py.exn) (ops : list op) : forall s : Redis.server,
  Redis.fault s = Some e ->
  serve_events s (Request <$> ops)
  = ((fun o => Some (inr (match o with
                          | Health =>
                              ([("status", JStr "unhealthy"); ("error", JStr (Py.str e))],
                               503)
                          | _ => ([("error", JStr (Py.str e))], 500)
                          end))) <$> ops, s).
Proof.
  induction ops as [|o ops IH]; intros s Hf; [done|].
  cbn [fmap list_fmap serve_events serve].
  rewrite (run_fault s o e Hf).
  change (list_fmap op event Request ops) with (Request <$> ops).
  by rewrite (IH s Hf).
Qed.

(** While commands fail with [e], any number of requests in a row are
    answered with the message of [e] (status 503 for health, 500 for the
    others) and leave the store as it was: nothing is applied, then or
    later. *)
Theorem outage_changes_nothing (e : Py.exn) (ops : list op) (s : Redis.server) :
  Redis.fault s = Some e ->
  snd (serve_events s (Request <$> ops)) = s
  /\ fst (serve_events s (Request <$> ops))
     = map (fun o => Some (inr (match o with
                                | Health =>
                                    ([("status", JStr "unhealthy");
                                      ("error", JStr (Py.str e))], 503)
                                | _ => ([("error", JStr (Py.str e))], 500)
                                end))) ops.
Proof. intros Hf. by rewrite (serve_events_fault e ops s Hf). Qed.

Lemma outage_changes_nothing_witness :
  snd (serve_events unreachable_server
         (Request <$> [Increment; Reset; GetCount; Health; Increment]))
  = unreachable_server
  /\ fst (serve_events unreachable_server
            (Request <$> [Increment; Reset; GetCount; Health; Increment]))
     = map (fun o => Some (inr (match o with
                                | Health =>
                                    ([("status", JStr "unhealthy");
                                      ("error", JStr (Py.str refused))], 503)
                                | _ => ([("error", JStr (Py.str refused))], 500)
                                end)))
           [Increment; Reset; GetCount; Health; Increment].
Proof. apply (outage_changes_nothing refused); reflexivity. Defined.

(** ** The service as an integer counter *)

Lemma value_of_cases (s : Redis.server) (c : Z) :
  value_of s = Some c ->
  (Redis.db s !! "counter" = None /\ c = 0)
  \/ Redis.db s !! "counter" = Some (Py.repr_int c).
Proof.
  unfold value_of. destruct (Redis.db s !! "counter") as [t|].
  - intros Ht. right. f_equal. by apply int_of_text_Some.
  - intros [= <-]. by left.
Qed.

Lemma value_of_insert (f : option Py.exn) (m : gmap string string) (c : Z) :
  value_of (Redis.Server f (<["counter" := Py.repr_int c]> m)) = Some c.
Proof.
  unfold value_of. cbn [Redis.db]. by rewrite lookup_insert_eq, int_of_text_repr.
Qed.

(** One event: the service answers as the reference does and holds the
    integer the reference holds. *)
Lemma serve_model (ev : event) (s : Redis.server) (c : Z) :
  value_of s = Some c ->
  snd (serve s ev) = snd (counter_step (c, Redis.fault s) ev)
  /\ value_of (fst (serve s ev)) = Some (fst (fst (counter_step (c, Redis.fault s) ev)))
  /\ Redis.fault (fst (serve s ev)) = snd (fst (counter_step (c, Redis.fault s) ev)).
Proof.
  intros Hv. destruct ev as [o|f]; cbn [serve counter_step]; [|done].
  destruct (Redis.fault s) as [e|] eqn:Hf.
  { rewrite (run_fault s o e Hf). cbn [fst snd]. by destruct o. }
  destruct (value_of_cases s c Hv) as [[Hc ->]|Hc], o; cbn [handler].
  - rewrite run_increment, (exec_incr_absent s _ Hf Hc). cbn [fst snd].
    by rewrite value_of_insert.
  - rewrite run_get_count, (exec_get s _ Hf), Hc. cbn [fst snd]. by rewrite Hv.
  - rewrite run_reset, (exec_set s _ _ Hf). cbn [fst snd].
    by rewrite (value_of_insert None _ 0).
  - rewrite run_health, (exec_ping s Hf). cbn [fst snd]. by rewrite Hv.
  - rewrite (run_increment_int s c Hf Hc). cbn [fst snd].
    by rewrite value_of_insert.
  - rewrite (run_get_count_int s c Hf Hc). cbn [fst snd]. by rewrite Hv.
  - rewrite run_reset, (exec_set s _ _ Hf). cbn [fst snd].
    by rewrite (value_of_insert None _ 0).
  - rewrite run_health, (exec_ping s Hf). cbn [fst snd]. by rewrite Hv.
Qed.

Lemma serve_events_model (evs : list event) : forall (s : Redis.server) (c : Z),
  value_of s = Some c ->
  fst (serve_events s evs) = fst (counter_events (c, Redis.fault s) evs)
  /\ value_of (snd (serve_events s evs))
     = Some (fst (snd (counter_events (c, Redis.fault s) evs)))
  /\ Redis.fault (snd (serve_events s evs))
     = snd (snd (counter_events (c, Redis.fault s) evs)).
Proof.
  induction evs as [|ev evs IH]; intros s c Hv; [done|].
  cbn [serve_events counter_events].
  destruct (serve_model ev s c Hv) as (Hr & Hv' & Hf').
  destruct (serve s ev) as [s1 r], (counter_step (c, Redis.fault s) ev) as [[c1 f1] r1].
  cbn [fst snd] in *. subst f1 r1.
  destruct (IH s1 c1 Hv') as (Hrs & Hv2 & Hf2).
  destruct (serve_events s1 evs) as [rs s2],
           (counter_events (c1, Redis.fault s1) evs) as [rs' st2].
  cbn [fst snd] in *. by subst rs'.
Qed.

(** From a store whose counter key is not set or holds the text of an
    integer [c], the responses to any sequence of requests and changes of
    the connection are those of an integer counter started at [c] (0 for a
    key not set): an increment answers the value plus one, a read the
    value, a reset 0, a request that meets a failure its message, with no
    effect. At the end the store holds the integer the counter has. *)
Theorem service_refines_counter (evs : list event) (s : Redis.server) (c : Z) :
  value_of s = Some c ->
  fst (serve_events s evs) = fst (counter_events (c, Redis.fault s) evs)
  /\ value_of (snd (serve_events s evs))
     = Some (fst (snd (counter_events (c, Redis.fault s) evs))).
Proof.
  intros Hv. destruct (serve_events_model evs s c Hv) as (H1 & H2 & _). by split.
Qed.

Lemma service_refines_counter_witness :
  fst (serve_events stale_server
         [Request Increment; Net (Some refused); Request Increment;
          Net None; Request GetCount; Request Reset; Request Increment])
  = fst (counter_events (41, None)
           [Request Increment; Net (Some refused); Request Increment;
            Net None; Request GetCount; Request Reset; Request Increment])
  /\ value_of (snd (serve_events stale_server
                      [Request Increment; Net (Some refused); Request Increment;
                       Net None; Request GetCount; Request Reset; Request Increment]))
     = Some (fst (snd (counter_events (41, None)
                         [Request Increment; Net (Some refused); Request Increment;
                          Net None; Request GetCount; Request Reset; Request Increment]))).
Proof. apply (service_refines_counter _ stale_server 41). reflexivity. Defined.

(** Two stores with the same state of the connection that hold the same
    integer, a key that is not set counting as 0, answer every sequence of
    events alike: a client cannot tell a counter that was never set from one
    that was reset. *)
Theorem unset_key_is_zero (evs : list event) (s1 s2 : Redis.server) (c : Z) :
  Redis.fault s1 = Redis.fault s2 ->
  value_of s1 = Some c ->
  value_of s2 = Some c ->
  fst (serve_events s1 evs) = fst (serve_events s2 evs).
Proof.
  intros Hf H1 H2.
  destruct (serve_events_model evs s1 c H1) as (-> & _).
  destruct (serve_events_model evs s2 c H2) as (-> & _).
  by rewrite Hf.
Qed.

Lemma unset_key_is_zero_witness :
  fst (serve_events empty_server
         [Request GetCount; Request Increment; Request Health; Request Increment])
  = fst (serve_events reset_server
           [Request GetCount; Request Increment; Request Health; Request Increment]).
Proof. apply (unset_key_is_zero _ empty_server reset_server 0); reflexivity. Defined.

(** ** Requests in flight together, in general *)

Section Linearization.

Lemma finished_run (p : prog response) (s : Redis.server) :
  finished p = true ->
  thread (Answered (fst (run p s))) = p /\ snd (run p s) = s.
Proof. by destruct p. Qed.

(** A handler is one command followed by code that sends none. *)
Lemma handler_call (o : op) :
  exists (R : Type) (c : cmd R) (k : Py.exn + R -> prog response),
    handler o = Call c k /\ forall r, finished (k r) = true.
Proof.
  destruct o; eexists _, _, _; (split; [reflexivity|]).
  - by intros [e|count].
  - intros [e|[text|]]; cbn; try done. by destruct (Py.int_of_str text).
  - by intros [e|b].
  - by intros [e|b].
Qed.

Lemma sched_step_serve_at (s : Redis.server) (g : list request_state) (i : nat) :
  sched_step (s, thread <$> g) i
  = (fst (serve_at (s, g) i), thread <$> snd (serve_at (s, g) i)).
Proof.
  unfold sched_step, serve_at, pool. cbv beta iota. rewrite list_lookup_fmap.
  destruct (g !! i) as [[o|[e|r]]|] eqn:Hg; cbn [fmap option_fmap option_map thread];
    try done.
  destruct (handler_call o) as (R & c & k & Ho & Hk). rewrite Ho. cbn [run].
  destruct (Redis.exec c s) as [r s'].
  destruct (finished_run (k r) s' (Hk r)) as [Hth Hs].
  destruct (run (k r) s') as [a s'']. cbn [fst snd] in *. subst s''.
  by rewrite list_fmap_insert, Hth.
Qed.

End Linearization.

(** Requests of any kind served together, their commands reaching the store
    in the order of the schedule: the store and the answers are those of
    serving the requests whole, one at a time, each at the moment its thread
    is first scheduled. Every run of the threads is a run of the requests in
    some order. *)
Theorem interleaving_is_sequential (sched : list nat) :
  forall (s : Redis.server) (g : list request_state),
    interleave sched (s, thread <$> g)
    = (fst (foldl serve_at (s, g) sched), thread <$> snd (foldl serve_at (s, g) sched)).
Proof.
  unfold interleave.
  induction sched as [|i sched IH]; intros s g; cbn [foldl]; [done|].
  rewrite sched_step_serve_at.
  destruct (serve_at (s, g) i) as [s1 g1]. cbn [fst snd]. apply IH.
Qed.

(** ** Routes *)

(** Only a POST reaches a view that writes: a request line with any other
    method that is routed to a view leaves the store as it was. *)
Theorem only_post_writes (method path : string) (o : op) (s : Redis.server) :
  view_of method path = Some o ->
  method <> "POST" ->
  snd (run (handler o) s) = s.
Proof.
  intros Hv Hm. unfold view_of, routes in Hv. cbn [find_view] in Hv.
  assert (allowed method ["POST"] = false) as Hpost.
  { unfold allowed. cbn [existsb]. destruct (String.eqb_spec method "POST"); [done|].
    cbn. by rewrite andb_false_r. }
  rewrite Hpost, !andb_false_r in Hv.
  destruct (path =? "/count")%string; [destruct (allowed method ["GET"])|].
  - injection Hv as <-. apply run_get_count_frame.
  - destruct ((path =? "/health")%string && false); [|done].
    injection Hv as <-. apply run_health_frame.
  - destruct ((path =? "/health")%string && allowed method ["GET"]); [|done].
    injection Hv as <-. apply run_health_frame.
Qed.

Lemma only_post_writes_witness :
  snd (run (handler GetCount) stale_server) = stale_server.
Proof.
  apply (only_post_writes "HEAD" "/count" GetCount stale_server);
    [reflexivity|discriminate].
Defined.

Lemma allowed_post (method : string) : allowed method ["POST"] = true <-> method = "POST".
Proof.
  unfold allowed. cbn. rewrite andb_false_r, !orb_false_r. apply String.eqb_eq.
Qed.

Lemma allowed_get (method : string) :
  allowed method ["GET"] = true <-> method = "GET" \/ method = "HEAD".
Proof.
  unfold allowed. cbn.
  rewrite andb_true_r, orb_false_r, orb_true_iff, !String.eqb_eq. done.
Qed.

(** A request line reaches a view only with the method of its rule (HEAD
    standing for GET) and the path of its rule, letter for letter. *)
Theorem view_of_Some (method path : string) (o : op) :
  view_of method path = Some o
  <-> match o with
      | Increment => path = "/increment" /\ method = "POST"
      | GetCount => path = "/count" /\ (method = "GET" \/ method = "HEAD")
      | Reset => path = "/reset" /\ method = "POST"
      | Health => path = "/health" /\ (method = "GET" \/ method = "HEAD")
      end.
Proof.
  unfold view_of, routes. cbn [find_view].
  pose proof (allowed_post method) as HP. pose proof (allowed_get method) as HG.
  destruct (allowed method ["POST"]), (allowed method ["GET"]);
    destruct (String.eqb_spec path "/increment") as [Hi|Hi];
    destruct (String.eqb_spec path "/count") as [Hc|Hc];
    destruct (String.eqb_spec path "/reset") as [Hr|Hr];
    destruct (String.eqb_spec path "/health") as [Hh|Hh];
    try congruence; cbn; destruct o; intuition congruence.
Qed.

(** ** After an increment *)

Lemma increment_success (s s' : Redis.server) (m : Z) :
  run increment s = (inr ([("count", JInt m)], 200), s') ->
  Redis.fault s' = None /\ Redis.db s' !! "counter" = Some (Py.repr_int m).
Proof.
  rewrite run_increment. unfold Redis.exec.
  destruct (Redis.fault s) as [e|]; [done|].
  destruct (Redis.db s !! "counter") as [t|]; [destruct (Redis.int_of_text t) as [n|]|];
    intros [= <- <-]; cbn [Redis.fault Redis.db]; by rewrite lookup_insert_eq.
Qed.

(** When an increment answers [{"count": m}] with 200, whatever the store
    held before, a read right after answers [m] and the next increment
    [m + 1]. *)
Theorem after_increment (s s' : Redis.server) (m : Z) :
  run increment s = (inr ([("count", JInt m)], 200), s') ->
  fst (run get_count s') = inr ([("count", JInt m)], 200)
  /\ fst (run increment s') = inr ([("count", JInt (m + 1))], 200).
Proof.
  intros [Hf Hc]%increment_success.
  by rewrite (run_get_count_int s' m Hf Hc), (run_increment_int s' m Hf Hc).
Qed.

Lemma after_increment_witness :
  fst (run get_count (snd (run increment stale_server))) = inr ([("count", JInt 42)], 200)
  /\ fst (run increment (snd (run increment stale_server)))
     = inr ([("count", JInt (42 + 1))], 200).
Proof.
  apply (after_increment stale_server (snd (run increment stale_server)) 42).
  reflexivity.
Defined.

(** ** Configuration that is set *)

(** A variable that is set is used: [REDIS_HOST] as it is, and
    [REDIS_PORT] and [PORT], when they hold the decimal text of an integer,
    as that integer. *)
Theorem config_of_set_variables (environ : gmap string string) (host : string) (p : Z) :
  (environ !! "REDIS_HOST" = Some host -> redis_host environ = Py.Str host)
  /\ (environ !! "REDIS_PORT" = Some (Py.repr_int p) -> redis_port environ = inr p)
  /\ (environ !! "PORT" = Some (Py.repr_int p) -> port environ = inr p).
Proof.
  unfold redis_host, redis_port, port, Py.environ_get, Py.int.
  split_and!; intros ->; [done| |]; by rewrite int_of_str_repr.
Qed.

Lemma config_of_set_variables_witness :
  redis_host {[ "REDIS_HOST" := "redis"; "REDIS_PORT" := "6380"; "PORT" := "6380" ]}
  = Py.Str "redis"
  /\ redis_port {[ "REDIS_HOST" := "redis"; "REDIS_PORT" := "6380"; "PORT" := "6380" ]}
     = inr 6380
  /\ port {[ "REDIS_HOST" := "redis"; "REDIS_PORT" := "6380"; "PORT" := "6380" ]}
     = inr 6380.
Proof.
  destruct (config_of_set_variables
              {[ "REDIS_HOST" := "redis"; "REDIS_PORT" := "6380"; "PORT" := "6380" ]}
              "redis" 6380) as (Hh & Hr & Hp).
  split_and!; [apply Hh|apply Hr|apply Hp]; reflexivity.
Defined.

(** A port variable that is set to a text [int] refuses, the empty text
    for one, is not replaced by the default: [int] raises [ValueError] and
    there is no port. *)
Theorem config_rejects_bad_port (environ : gmap string string) (text : string) :
  Py.int_of_str text = None ->
  (environ !! "REDIS_PORT" = Some text ->
   redis_port environ
   = inl (Py.ValueError ("invalid literal for int() with base 10: " +:+ Py.repr_str text)))
  /\ (environ !! "PORT" = Some text ->
      port environ
      = inl (Py.ValueError ("invalid literal for int() with base 10: " +:+ Py.repr_str text))).
Proof.
  intros Hi. unfold redis_port, port, Py.environ_get, Py.int.
  split; intros ->; by rewrite Hi.
Qed.

Lemma config_rejects_bad_port_witness :
  port {[ "PORT" := EmptyString ]}
  = inl (Py.ValueError "invalid literal for int() with base 10: ''").
Proof.
  destruct (config_rejects_bad_port {[ "PORT" := EmptyString ]} EmptyString) as [_ H];
    [reflexivity|].
  apply H. reflexivity.
Defined.
